(** * Loan Ranger: the loan cost calculator of [src/lib/calculator.ts]

    The calculator is a handful of functions over JavaScript numbers.  It is
    embedded once, generically over the arithmetic it runs on ([Arith]), so
    that what only depends on the control flow is proved for any arithmetic;
    the arithmetic of the program is [IEEE]: IEEE 754 binary64 with
    round-to-nearest-even, the numbers of JavaScript, taken from the
    standard library's [SpecFloat].  Everything is executable.

    The period count [months] is an integer in every caller (the form schema
    validates it with [integer()] and [minValue(1)]); it is a [nat] here, and
    the loop counters of the source are [nat]s converted by [of_nat]. *)

From Stdlib Require Import ZArith QArith List String Bool Lia.
From Stdlib Require Import SpecFloat.
From Stdlib Require PrimFloat FloatOps.
Import ListNotations.

Set Implicit Arguments.

(** ** The arithmetic of numbers *)

Declare Scope num_scope.
Delimit Scope num_scope with num.

(** What the calculator needs from its numbers: literals, the four
    operations, [**] at an integer exponent, [Math.abs], [<], [===] and
    [Number.NaN]. *)
Class Arith : Type := {
  num : Type;
  (** an integer literal or loop counter *)
  of_nat : nat -> num;
  (** a decimal literal, given as the fraction it denotes *)
  lit : Q -> num;
  NaN : num;
  add : num -> num -> num;
  sub : num -> num -> num;
  mul : num -> num -> num;
  div : num -> num -> num;
  (** [x ** n]; every exponent of the source is a non-negative integer *)
  pow : num -> nat -> num;
  abs : num -> num;
  ltb : num -> num -> bool;
  (** strict equality [===] on numbers *)
  eqb : num -> num -> bool
}.

Infix "+" := add : num_scope.
Infix "-" := sub : num_scope.
Infix "*" := mul : num_scope.
Infix "/" := div : num_scope.
Infix "**" := pow (at level 30, right associativity) : num_scope.
Infix "<?" := ltb : num_scope.
Infix "===" := eqb (at level 70, no associativity) : num_scope.

(** ** Exceptions *)

(** A thrown [new Error(message)]. *)
Inductive Exn : Type := Error (message : string).

(** How a call ends: it returns a value or throws. *)
Inductive completion (T : Type) : Type :=
| Return (v : T)
| Throw (e : Exn).
Arguments Return {T} v.
Arguments Throw {T} e.

(** ** The calculator *)

Section Calculator.
Context {A : Arith}.
Local Open Scope num_scope.

Local Notation "0" := (of_nat 0) : num_scope.
Local Notation "1" := (of_nat 1) : num_scope.
Local Notation "12" := (of_nat 12) : num_scope.

Record LoanInput : Type := {
  principal : num;
  annualRate : num;
  months : nat;
  initialFees : num;
  insuranceCost : num
}.

Record LoanOutput : Type := {
  monthlyInstallmentWithoutInsurance : num;
  fullInstallment : num;
  totalInterests : num;
  totalCostWithoutInsurance : num;
  totalCost : num;
  effectiveAnnualRate : num;
  effectiveInsuranceAnnualRate : num
}.

(** The anonymous result type of [computeInterestCost]. *)
Record InterestCost : Type := {
  ic_monthlyInstallmentWithoutInsurance : num;
  ic_totalInterests : num
}.

(** The result type of [computeEffectiveAnnualRate]:
    [{ converged: true; rate: number } | { converged: false; rate?: number }]. *)
Record RateResult : Type := {
  converged : bool;
  rate : option num
}.

Definition computeInterestCost (annualRate : num) (months : nat) (principal : num)
  : InterestCost :=
  let monthlyRate := annualRate / 12 in
  if monthlyRate === 0 then
    {| ic_monthlyInstallmentWithoutInsurance := principal / of_nat months;
       ic_totalInterests := 0 |}
  else
    let compoundFactor := (1 + monthlyRate) ** months in
    let monthlyInstallmentWithoutInsurance :=
      (principal * monthlyRate * compoundFactor) / (compoundFactor - 1) in
    {| ic_monthlyInstallmentWithoutInsurance := monthlyInstallmentWithoutInsurance;
       ic_totalInterests := monthlyInstallmentWithoutInsurance * of_nat months - principal |}.

(** The body of the [for] loop of [objectiveFunction] at counter [i], on
    the pair [(value, derivative)]. *)
Definition objective_step (averageInstallment rate : num) (acc : num * num) (i : nat)
  : num * num :=
  let '(value, derivative) := acc in
  let pow := S i in
  (value + averageInstallment * rate ** pow,
   derivative + of_nat pow * rate ** i).

Definition objectiveFunction (months : nat) (principal initialFees averageInstallment : num)
  (rate : num) : num * num :=
  let '(value, derivative) :=
    fold_left (objective_step averageInstallment rate) (seq 0 months) (0, 0) in
  let value := value + (initialFees - principal) in
  let derivative := derivative * averageInstallment in
  (value, derivative).

(** The [for] loop of [newton] with [remaining] iterations to go. *)
Fixpoint newton_loop (f : num -> num * num) (epsilon : num) (remaining : nat) (x : num)
  : completion num :=
  match remaining with
  | O => Throw (Error "Max iterations reached")
  | S remaining' =>
      let '(value, derivative) := f x in
      if abs value <? epsilon then Return x
      else if abs derivative <? epsilon then Throw (Error "Derivative is too small")
      else newton_loop f epsilon remaining' (x - value / derivative)
  end.

Definition newton (f : num -> num * num) (x0 : num) (epsilon : num) (maxIterations : nat)
  : completion num :=
  newton_loop f epsilon maxIterations x0.

(** The default arguments of [newton]. *)
Definition default_epsilon : num := lit (1 # 10000000).
Definition default_maxIterations : nat := 100.

Definition averageInstallment (months : nat) (principal initialFees totalCost : num) : num :=
  let totalReimbursed := totalCost + principal in
  (totalReimbursed - initialFees) / of_nat months.

(** The [try]/[catch] of the source turns both throws of [newton] into
    [{ converged: false }]; the [console.error] of the handler writes a
    diagnostic and has no part in the returned value. *)
Definition computeEffectiveAnnualRate (months : nat) (principal initialFees totalCost : num)
  : RateResult :=
  let averageInstallment := averageInstallment months principal initialFees totalCost in
  let objectiveFunction := objectiveFunction months principal initialFees averageInstallment in
  match newton objectiveFunction (lit (99 # 100)) default_epsilon default_maxIterations with
  | Return rate => {| converged := true; rate := Some ((1 / rate) ** 12 - 1) |}
  | Throw error => {| converged := false; rate := None |}
  end.

(** [r ?? Number.NaN] on the optional [rate] of a result. *)
Definition orNaN (r : option num) : num :=
  match r with
  | Some v => v
  | None => NaN
  end.

Definition computeLoanOutput (inputs : LoanInput) : LoanOutput :=
  let ic := computeInterestCost (annualRate inputs) (months inputs) (principal inputs) in
  let monthlyInstallmentWithoutInsurance := ic_monthlyInstallmentWithoutInsurance ic in
  let totalInterests := ic_totalInterests ic in
  let totalCost := initialFees inputs + insuranceCost inputs + totalInterests in
  let fullInstallment :=
    (principal inputs + totalInterests + insuranceCost inputs) / of_nat (months inputs) in
  let effectiveAnnualRate :=
    rate (computeEffectiveAnnualRate (months inputs) (principal inputs) (initialFees inputs)
            (initialFees inputs + totalInterests + insuranceCost inputs)) in
  let effectiveInsuranceAnnualRate :=
    rate (computeEffectiveAnnualRate (months inputs) (principal inputs) (initialFees inputs)
            (initialFees inputs + totalInterests)) in
  {| monthlyInstallmentWithoutInsurance := monthlyInstallmentWithoutInsurance;
     fullInstallment := fullInstallment;
     totalInterests := totalInterests;
     totalCostWithoutInsurance := initialFees inputs + totalInterests;
     totalCost := totalCost;
     effectiveAnnualRate := orNaN effectiveAnnualRate;
     effectiveInsuranceAnnualRate :=
       orNaN effectiveAnnualRate - orNaN effectiveInsuranceAnnualRate |}.

End Calculator.

(** ** IEEE 754 binary64: the numbers of JavaScript

    A double is a [spec_float] of the standard library, with the library's
    operations at precision 53 and maximal exponent 1024.  The type also has
    triples that are not normalised; the properties below quantify over all
    of it, the doubles included. *)

Module IEEE.

Definition prec : Z := 53.
Definition emax : Z := 1024.

(** An integer as the nearest double (exact below [2^53]). *)
Definition of_Z (z : Z) : spec_float := binary_normalize prec emax z 0 false.

(** A decimal literal [n/d] as the nearest double: the division of two
    exactly represented integers is rounded once. *)
Definition of_Q (q : Q) : spec_float :=
  SFdiv prec emax (of_Z (Qnum q)) (of_Z (Zpos (Qden q))).

(** [x ** n] at a non-negative integer exponent.  ECMAScript fixes the
    result at exponent zero, at NaN, at the infinities and at the zeros,
    and leaves the other cases to an approximation by the engine; the
    model rounds the exact power once, to nearest-even.  The general
    properties below hold for any value of the power; the inputs on which
    the code is shown to fail reach it only at exponent 0 or 1, at the
    base 1, or at an infinite or NaN base, where every engine agrees. *)
Definition power (x : spec_float) (n : nat) : spec_float :=
  match n with
  | O => of_Z 1
  | S _ =>
      match x with
      | S754_nan => S754_nan
      | S754_infinity s => S754_infinity (s && Nat.odd n)
      | S754_zero s => S754_zero (s && Nat.odd n)
      | S754_finite s m e =>
          binary_round prec emax (s && Nat.odd n) (Pos.pow m (Pos.of_nat n))
            (e * Z.of_nat n)
      end
  end.

#[export] Instance arith : Arith := {|
  num := spec_float;
  of_nat := fun n => of_Z (Z.of_nat n);
  lit := of_Q;
  NaN := S754_nan;
  add := SFadd prec emax;
  sub := SFsub prec emax;
  mul := SFmul prec emax;
  div := SFdiv prec emax;
  pow := power;
  abs := SFabs;
  ltb := SFltb;
  eqb := SFeqb
|}.

(** A number that is neither NaN nor an infinity. *)
Definition is_finite (x : spec_float) : bool :=
  match x with
  | S754_zero _ | S754_finite _ _ _ => true
  | _ => false
  end.

Definition is_nan (x : spec_float) : bool :=
  match x with
  | S754_nan => true
  | _ => false
  end.

Definition is_zero (x : spec_float) : bool :=
  match x with
  | S754_zero _ => true
  | _ => false
  end.

End IEEE.

(** ** The run of Newton's iteration

    The successive values of [x] in the loop of [newton], and what the loop
    tests at each of them. *)

Section NewtonRun.
Context {A : Arith}.
Local Open Scope num_scope.

Variable f : num -> num * num.
Variable epsilon : num.

(** The convergence test [Math.abs(value) < epsilon] at [x]. *)
Definition accepted (x : num) : bool := abs (fst (f x)) <? epsilon.

(** The guard [Math.abs(derivative) < epsilon] at [x]. *)
Definition flat (x : num) : bool := abs (snd (f x)) <? epsilon.

(** The update [x -= value / derivative]. *)
Definition newton_step (x : num) : num := x - fst (f x) / snd (f x).

(** The value of [x] at the start of iteration [k], counted from zero. *)
Fixpoint iterate (x0 : num) (k : nat) : num :=
  match k with
  | O => x0
  | S k' => iterate (newton_step x0) k'
  end.

(** Iteration [k] is entered: no earlier iteration returned or threw. *)
Definition entered (x0 : num) (k : nat) : Prop :=
  forall j, (j < k)%nat ->
    accepted (iterate x0 j) = false /\ flat (iterate x0 j) = false.

End NewtonRun.

(** ** The solver's run and the two solves of [computeLoanOutput] *)

Section SolverRun.
Context {A : Arith}.
Local Open Scope num_scope.

(** The objective that [computeEffectiveAnnualRate] hands to [newton]. *)
Definition solver_objective (months : nat) (principal initialFees totalCost : num)
  : num -> num * num :=
  objectiveFunction months principal initialFees
    (averageInstallment months principal initialFees totalCost).

(** The starting point [0.99] of the solver. *)
Definition solver_x0 : num := lit (99 # 100).

(** The first solve of [computeLoanOutput]: all costs included. *)
Definition allInSolve (inputs : LoanInput) : RateResult :=
  let totalInterests :=
    ic_totalInterests
      (computeInterestCost (annualRate inputs) (months inputs) (principal inputs)) in
  computeEffectiveAnnualRate (months inputs) (principal inputs) (initialFees inputs)
    (initialFees inputs + totalInterests + insuranceCost inputs).

(** The second solve of [computeLoanOutput]: insurance excluded. *)
Definition exclSolve (inputs : LoanInput) : RateResult :=
  let totalInterests :=
    ic_totalInterests
      (computeInterestCost (annualRate inputs) (months inputs) (principal inputs)) in
  computeEffectiveAnnualRate (months inputs) (principal inputs) (initialFees inputs)
    (initialFees inputs + totalInterests).

(** The insurance share of the rate as the specification words it: the
    difference of the two solved rates, and NaN if either solve failed. *)
Definition spec_effectiveInsuranceAnnualRate (inputs : LoanInput) : num :=
  match rate (allInSolve inputs), rate (exclSolve inputs) with
  | Some allIn, Some excl =>
      if converged (allInSolve inputs) && converged (exclSolve inputs)
      then allIn - excl else NaN
  | _, _ => NaN
  end.

End SolverRun.

(** ** Checks and inputs used to state the properties *)

Section Checks.
Context {A : Arith}.
Local Open Scope num_scope.

(** The amortization identity
    [installment * months - principal == totalInterests]
    within the tolerance [1e-9], as a test on a computed result. *)
Definition amortization_identity_holds (months : nat) (principal : num)
  (ic : InterestCost) : bool :=
  abs ((ic_monthlyInstallmentWithoutInsurance ic * of_nat months - principal)
       - ic_totalInterests ic) <? lit (1 # 1000000000).

(** The annual rate [1e-20], which the form accepts as [1e-18] percent. *)
Definition tiny_rate : num := lit (1 # 100000000000000000000).

End Checks.


(** ** The caller: from the form to the calculator *)

(** The picklist ['months' | 'years'] of the form schema. *)
Inductive DurationUnit : Type := Months | Years.

(** A search parameter as the router gives it:
    [string | string[] | undefined]. *)
Inductive ParamValue : Type :=
| PUndefined
| PString (s : string)
| PArray (l : list string).

(** [parseUnit] on a string. *)
Definition parseUnit_string (value : string) : DurationUnit :=
  if String.eqb value "years" then Years else Months.

(** [parseUnit]: an array is read at its first element, [value[0]], which
    is [undefined] for the empty array. *)
Definition parseUnit (value : ParamValue) : DurationUnit :=
  match value with
  | PUndefined => Months
  | PArray [] => Months
  | PArray (first :: _) => parseUnit_string first
  | PString s => parseUnit_string s
  end.

Section Caller.
Context {A : Arith}.
Local Open Scope num_scope.

(** The output of a successful parse of the form schema; the duration is
    an integer, checked by [integer()]. *)
Record FormOutput : Type := {
  form_principal : num;
  form_annualRatePercentage : num;
  form_durationValue : nat;
  form_durationUnit : DurationUnit;
  form_initialFees : num;
  form_insuranceCost : num
}.

(** The result of [safeParse]: [{ success: false }] or
    [{ success: true, output }]. *)
Inductive SafeParseResult : Type :=
| ParseFailure
| ParseSuccess (output : FormOutput).

(** [getResult]: [{ output: null }] on a failed parse, and otherwise the
    calculator on the rate as a fraction and the duration in months. *)
Definition getResult (parsed : SafeParseResult) : option LoanOutput :=
  match parsed with
  | ParseFailure => None
  | ParseSuccess output =>
      let months :=
        match form_durationUnit output with
        | Months => form_durationValue output
        | Years => (form_durationValue output * 12)%nat
        end in
      Some (computeLoanOutput
              {| principal := form_principal output;
                 annualRate := form_annualRatePercentage output / of_nat 100;
                 months := months;
                 initialFees := form_initialFees output;
                 insuranceCost := form_insuranceCost output |})
  end.

End Caller.

(** * Properties *)

(** ** Newton's iteration, for any arithmetic *)

Section NewtonFacts.
Context {A : Arith}.
Local Open Scope num_scope.

Variable f : num -> num * num.
Variable epsilon : num.

Lemma newton_loop_S (n : nat) (x : num) :
  newton_loop f epsilon (S n) x =
    if accepted f epsilon x then Return x
    else if flat f epsilon x then Throw (Error "Derivative is too small")
    else newton_loop f epsilon n (newton_step f x).
Proof.
  unfold accepted, flat, newton_step. simpl. destruct (f x) as [v d]. reflexivity.
Qed.

Lemma entered_O (x0 : num) : entered f epsilon x0 0.
Proof. intros j Hj. lia. Qed.

Lemma entered_S (x0 : num) (k : nat) :
  entered f epsilon x0 (S k) <->
  accepted f epsilon x0 = false /\ flat f epsilon x0 = false /\
  entered f epsilon (newton_step f x0) k.
Proof.
  split.
  - intros H. destruct (H 0%nat ltac:(lia)) as [Ha Hf]. simpl in Ha, Hf.
    repeat split; try assumption; apply (H (S j)); lia.
  - intros (Ha & Hf & H) [|j] Hj; simpl.
    + split; assumption.
    + apply H. lia.
Qed.

(** The loop returns [x] exactly when [x] is an iterate it enters within
    its budget and accepts. *)
Lemma newton_loop_return (n : nat) (x0 x : num) :
  newton_loop f epsilon n x0 = Return x <->
  exists k, (k < n)%nat /\ entered f epsilon x0 k /\
            accepted f epsilon (iterate f x0 k) = true /\ x = iterate f x0 k.
Proof.
  revert x0. induction n as [|n IH]; intros x0.
  - simpl. split; [discriminate | intros (k & Hk & _); lia].
  - rewrite newton_loop_S. destruct (accepted f epsilon x0) eqn:Ha.
    + split.
      * intros [= <-]. exists 0%nat. simpl.
        split; [lia|]. split; [apply entered_O|]. split; auto.
      * intros (k & Hk & He & Hacc & ->). destruct k as [|k]; [reflexivity|].
        apply entered_S in He. destruct He as (Ha' & _). congruence.
    + destruct (flat f epsilon x0) eqn:Hf.
      * split; [discriminate|].
        intros (k & Hk & He & Hacc & ->). destruct k as [|k]; simpl in Hacc.
        -- congruence.
        -- apply entered_S in He. destruct He as (_ & Hf' & _). congruence.
      * rewrite IH. split.
        -- intros (k & Hk & He & Hacc & ->). exists (S k). simpl.
           split; [lia|]. split; [apply entered_S; auto|]. split; auto.
        -- intros (k & Hk & He & Hacc & ->). destruct k as [|k]; simpl in Hacc.
           ++ congruence.
           ++ exists k. apply entered_S in He. destruct He as (_ & _ & He).
              split; [lia|]. split; [assumption|]. split; auto.
Qed.

(** The loop throws on a flat derivative exactly when it enters, within
    its budget, an iterate that it does not accept and whose derivative is
    below [epsilon]. *)
Lemma newton_loop_flat (n : nat) (x0 : num) :
  newton_loop f epsilon n x0 = Throw (Error "Derivative is too small") <->
  exists k, (k < n)%nat /\ entered f epsilon x0 k /\
            accepted f epsilon (iterate f x0 k) = false /\
            flat f epsilon (iterate f x0 k) = true.
Proof.
  revert x0. induction n as [|n IH]; intros x0.
  - simpl. split; [discriminate | intros (k & Hk & _); lia].
  - rewrite newton_loop_S. destruct (accepted f epsilon x0) eqn:Ha.
    + split; [discriminate|].
      intros (k & Hk & He & Hacc & Hfl). destruct k as [|k]; simpl in Hacc.
      * congruence.
      * apply entered_S in He. destruct He as (Ha' & _). congruence.
    + destruct (flat f epsilon x0) eqn:Hf.
      * split; [|reflexivity].
        intros _. exists 0%nat. simpl.
        split; [lia|]. split; [apply entered_O|]. split; auto.
      * rewrite IH. split.
        -- intros (k & Hk & He & Hacc & Hfl). exists (S k). simpl.
           split; [lia|]. split; [apply entered_S; auto|]. split; auto.
        -- intros (k & Hk & He & Hacc & Hfl). destruct k as [|k]; simpl in Hfl.
           ++ congruence.
           ++ exists k. apply entered_S in He. destruct He as (_ & _ & He).
              split; [lia|]. split; [assumption|]. split; auto.
Qed.

(** The loop throws on its iteration cap exactly when it enters all of its
    iterations and none returns or throws. *)
Lemma newton_loop_max (n : nat) (x0 : num) :
  newton_loop f epsilon n x0 = Throw (Error "Max iterations reached") <->
  entered f epsilon x0 n.
Proof.
  revert x0. induction n as [|n IH]; intros x0.
  - simpl. split; auto using entered_O.
  - rewrite newton_loop_S, entered_S.
    destruct (accepted f epsilon x0) eqn:Ha.
    + split; [discriminate | intros (? & _); discriminate].
    + destruct (flat f epsilon x0) eqn:Hf.
      * split; [discriminate | intros (_ & ? & _); discriminate].
      * rewrite IH. tauto.
Qed.

(** The loop throws nothing but its two errors. *)
Lemma newton_loop_throws (n : nat) (x0 : num) (e : Exn) :
  newton_loop f epsilon n x0 = Throw e ->
  e = Error "Derivative is too small" \/ e = Error "Max iterations reached".
Proof.
  revert x0. induction n as [|n IH]; intros x0.
  - simpl. intros [= <-]. auto.
  - rewrite newton_loop_S.
    destruct (accepted f epsilon x0); [discriminate|].
    destruct (flat f epsilon x0); [intros [= <-]; auto | apply IH].
Qed.

(** An objective that is never accepted makes the loop throw. *)
Lemma newton_loop_never_accepted (n : nat) (x0 : num) :
  (forall x, accepted f epsilon x = false) ->
  exists e, newton_loop f epsilon n x0 = Throw e.
Proof.
  intros H. revert x0. induction n as [|n IH]; intros x0.
  - simpl. eauto.
  - rewrite newton_loop_S, H. destruct (flat f epsilon x0); eauto.
Qed.

End NewtonFacts.

(** ** The effective rate solver, for any arithmetic *)

Section SolverFacts.
Context {A : Arith}.
Local Open Scope num_scope.

Variable months : nat.
Variables principal initialFees totalCost : num.

Lemma solver_unfold :
  computeEffectiveAnnualRate months principal initialFees totalCost =
    match newton (solver_objective months principal initialFees totalCost)
            solver_x0 default_epsilon default_maxIterations with
    | Return x => {| converged := true; rate := Some ((of_nat 1 / x) ** 12 - of_nat 1) |}
    | Throw _ => {| converged := false; rate := None |}
    end.
Proof. reflexivity. Qed.

(** C1.  The solver runs [newton] on its objective from [0.99] with
    [epsilon = 1e-7] and at most 100 iterations.  It reports convergence
    exactly when the loop enters, at some iteration [k < 100], an iterate
    with [|g(x)| < epsilon]; it reports non-convergence exactly when the
    loop enters an iterate that is not accepted and has
    [|g'(x)| < epsilon], or enters all 100 iterations without accepting;
    and both throws of [newton] come back as the tagged result
    [{ converged: false }], with no rate. *)
Theorem C1_solver_outcome :
  let g := solver_objective months principal initialFees totalCost in
  let r := computeEffectiveAnnualRate months principal initialFees totalCost in
  (converged r = true <->
     exists k, (k < 100)%nat /\ entered g default_epsilon solver_x0 k /\
               accepted g default_epsilon (iterate g solver_x0 k) = true) /\
  (converged r = false <->
     (exists k, (k < 100)%nat /\ entered g default_epsilon solver_x0 k /\
                accepted g default_epsilon (iterate g solver_x0 k) = false /\
                flat g default_epsilon (iterate g solver_x0 k) = true) \/
     entered g default_epsilon solver_x0 100) /\
  (forall e, newton g solver_x0 default_epsilon default_maxIterations = Throw e ->
             (e = Error "Derivative is too small" \/ e = Error "Max iterations reached") /\
             r = {| converged := false; rate := None |}).
Proof.
  intros g r. subst r. rewrite solver_unfold. fold g.
  unfold newton, default_maxIterations.
  pose proof (newton_loop_return g default_epsilon 100 solver_x0) as HR.
  pose proof (newton_loop_flat g default_epsilon 100 solver_x0) as HF.
  pose proof (newton_loop_max g default_epsilon 100 solver_x0) as HM.
  pose proof (@newton_loop_throws _ g default_epsilon 100 solver_x0) as HT.
  destruct (newton_loop g default_epsilon 100 solver_x0) as [x|e] eqn:E; simpl.
  - split; [|split].
    + split; [intros _|reflexivity].
      destruct (proj1 (HR x) eq_refl) as (k & Hk & He & Ha & _). eauto.
    + split; [discriminate|].
      intros [H|H]; [apply HF in H | apply HM in H]; discriminate.
    + discriminate.
  - split; [|split].
    + split; [discriminate|].
      intros (k & Hk & He & Ha).
      assert (@Throw num e = Return (iterate g solver_x0 k)) as H; [|discriminate].
      apply HR. eauto.
    + split; [intros _|reflexivity].
      destruct (HT e eq_refl) as [-> | ->]; [left; apply HF | right; apply HM]; reflexivity.
    + intros e' [= <-]. split; [apply HT|]; reflexivity.
Qed.

(** C4.  When the solver reports convergence, its rate is the
    annualisation [(1 / x) ** 12 - 1] of the iterate [x] that the loop
    accepted and [newton] returned. *)
Theorem C4_annualization :
  let g := solver_objective months principal initialFees totalCost in
  let r := computeEffectiveAnnualRate months principal initialFees totalCost in
  converged r = true ->
  exists k, (k < 100)%nat /\ entered g default_epsilon solver_x0 k /\
            accepted g default_epsilon (iterate g solver_x0 k) = true /\
            newton g solver_x0 default_epsilon default_maxIterations
              = Return (iterate g solver_x0 k) /\
            rate r = Some ((of_nat 1 / iterate g solver_x0 k) ** 12 - of_nat 1).
Proof.
  intros g r. subst r. rewrite solver_unfold. fold g.
  unfold newton, default_maxIterations.
  pose proof (newton_loop_return g default_epsilon 100 solver_x0) as HR.
  destruct (newton_loop g default_epsilon 100 solver_x0) as [x|e]; simpl; [|discriminate].
  intros _. destruct (proj1 (HR x) eq_refl) as (k & Hk & He & Ha & ->).
  exists k. auto.
Qed.

End SolverFacts.

(** ** The loan output, for any arithmetic *)

Section OutputFacts.
Context {A : Arith}.
Local Open Scope num_scope.

Lemma loan_output_insurance_rate (inputs : LoanInput) :
  effectiveInsuranceAnnualRate (computeLoanOutput inputs)
    = orNaN (rate (allInSolve inputs)) - orNaN (rate (exclSolve inputs)).
Proof. reflexivity. Qed.

Lemma solver_failed_rate (n : nat) (P F T : num) :
  converged (computeEffectiveAnnualRate n P F T) = false ->
  rate (computeEffectiveAnnualRate n P F T) = None.
Proof.
  rewrite solver_unfold. destruct (newton _ _ _ _); simpl; [discriminate | reflexivity].
Qed.

Lemma solver_converged_rate (n : nat) (P F T : num) :
  converged (computeEffectiveAnnualRate n P F T) = true ->
  exists r, rate (computeEffectiveAnnualRate n P F T) = Some r.
Proof.
  rewrite solver_unfold. destruct (newton _ _ _ _); simpl; [eauto | discriminate].
Qed.

(** A result of the solver has a rate exactly when it converged. *)
Lemma solve_shape (r : RateResult) :
  (exists n P F T, r = computeEffectiveAnnualRate n P F T) ->
  (converged r = false -> rate r = None) /\
  (converged r = true -> exists v, rate r = Some v).
Proof.
  intros (n & P & F & T & ->).
  split; [apply solver_failed_rate | apply solver_converged_rate].
Qed.

(** The solver sees [totalCost] only through the average installment. *)
Lemma solver_average (n : nat) (P F T T' : num) :
  averageInstallment n P F T = averageInstallment n P F T' ->
  computeEffectiveAnnualRate n P F T = computeEffectiveAnnualRate n P F T'.
Proof.
  intros E. rewrite !solver_unfold. unfold solver_objective. rewrite E. reflexivity.
Qed.

End OutputFacts.

(** ** The calculator on IEEE 754 doubles *)

Section IEEEFacts.
Import IEEE.
Local Open Scope num_scope.

Lemma twelve_eq : of_nat 12 = S754_finite false 6755399441055744 (-49).
Proof. reflexivity. Qed.


Lemma eqb_zero_inv (x : spec_float) :
  (x === of_nat 0) = true -> exists s, x = S754_zero s.
Proof.
  destruct x as [s|s| |s m e]; simpl; try discriminate; eauto; destruct s; discriminate.
Qed.

Lemma sub_nan_r (x : spec_float) : x - S754_nan = S754_nan.
Proof. destruct x; reflexivity. Qed.

(** A finite number minus itself is [+0]. *)
Lemma sub_diag_finite (x : spec_float) : is_finite x = true -> x - x = S754_zero false.
Proof.
  destruct x as [s|s| |s m e]; simpl; try discriminate; intros _.
  - destruct s; reflexivity.
  - unfold SFsub. rewrite Z.sub_diag. reflexivity.
Qed.





Lemma add_zero_r (s z : spec_float) :
  is_zero z = true -> s + z = s \/ (s = S754_zero true /\ s + z = S754_zero false).
Proof.
  destruct z as [b| | |]; try discriminate. intros _.
  destruct s as [[]| | |]; destruct b; simpl; auto.
Qed.

Lemma add_pzero_not_nzero (t : spec_float) : S754_zero false + t <> S754_zero true.
Proof. destruct t as [[]| | |]; simpl; discriminate. Qed.

Lemma reimbursed_zero_sign (P F : spec_float) :
  F <> S754_zero false ->
  (S754_zero false + P) - F = (S754_zero true + P) - F.
Proof.
  intros HF. destruct P as [[]| | |]; simpl; try reflexivity.
  destruct F as [[]| | |]; simpl; try reflexivity. congruence.
Qed.

(** A zero insurance cost leaves the average installment of the solver
    unchanged, also when it turns a total cost of [-0] into [+0]. *)
Lemma averageInstallment_without_insurance (n : nat) (P F ti ins : spec_float) :
  is_zero ins = true ->
  averageInstallment n P F (F + ti + ins) = averageInstallment n P F (F + ti).
Proof.
  intros Hz. unfold averageInstallment.
  destruct (@add_zero_r (@add IEEE.arith F ti) ins Hz) as [-> | [E1 E2]]; [reflexivity|].
  rewrite E2, E1. rewrite reimbursed_zero_sign; [reflexivity|].
  intros ->. exact (@add_pzero_not_nzero ti E1).
Qed.

(** C2.  At an annual rate of zero (of either sign) the installment is
    [principal / months] and the total interest is [0], for every
    principal and every period count. *)
Theorem C2_zero_rate (annualRate principal : spec_float) (months : nat) :
  (annualRate === of_nat 0) = true ->
  computeInterestCost annualRate months principal =
    {| ic_monthlyInstallmentWithoutInsurance := principal / of_nat months;
       ic_totalInterests := of_nat 0 |}.
Proof.
  intros H. destruct (eqb_zero_inv _ H) as [s ->].
  unfold computeInterestCost. rewrite twelve_eq. destruct s; reflexivity.
Qed.

Lemma C2_zero_rate_witness :
  (@of_nat IEEE.arith 0 === of_nat 0) = true /\
  computeInterestCost (of_nat 0) 12 (of_Z 12000) =
    {| ic_monthlyInstallmentWithoutInsurance := of_Z 12000 / of_nat 12;
       ic_totalInterests := of_nat 0 |}.
Proof.
  split; [reflexivity|]. apply C2_zero_rate. reflexivity.
Defined.

(** C5.  The insurance rate of the output is the all-in rate minus the
    rate solved without insurance when both solves converge, and NaN as
    soon as one of them fails. *)
Theorem C5_insurance_rate (inputs : LoanInput) :
  effectiveInsuranceAnnualRate (computeLoanOutput inputs)
    = spec_effectiveInsuranceAnnualRate inputs /\
  (converged (allInSolve inputs) = true -> converged (exclSolve inputs) = true ->
   exists allIn excl,
     rate (allInSolve inputs) = Some allIn /\ rate (exclSolve inputs) = Some excl /\
     effectiveInsuranceAnnualRate (computeLoanOutput inputs) = allIn - excl) /\
  (converged (allInSolve inputs) = false \/ converged (exclSolve inputs) = false ->
   effectiveInsuranceAnnualRate (computeLoanOutput inputs) = NaN).
Proof.
  rewrite loan_output_insurance_rate. unfold spec_effectiveInsuranceAnnualRate.
  destruct (@solve_shape _ (allInSolve inputs)) as [H1 H3];
    [unfold allInSolve; eauto 6|].
  destruct (@solve_shape _ (exclSolve inputs)) as [H2 H4];
    [unfold exclSolve; eauto 6|].
  destruct (converged (allInSolve inputs)), (converged (exclSolve inputs)).
  - destruct (H3 eq_refl) as [a Ha], (H4 eq_refl) as [b Hb]. rewrite Ha, Hb. simpl.
    split; [reflexivity|]. split; [eauto|]. intros [?|?]; discriminate.
  - rewrite (H2 eq_refl).
    assert (orNaN (rate (allInSolve inputs)) - orNaN None = NaN) as E
      by apply sub_nan_r.
    rewrite E. split; [destruct (rate (allInSolve inputs)); reflexivity|].
    split; [discriminate | reflexivity].
  - rewrite (H1 eq_refl). simpl. split; [reflexivity|]. split; [discriminate|]. reflexivity.
  - rewrite (H1 eq_refl). simpl. split; [reflexivity|]. split; [discriminate|]. reflexivity.
Qed.




(** C10, as the code has it.  With a zero insurance cost the two solves
    of [computeLoanOutput] give the same result; when that result has a
    finite rate the insurance rate is exactly [+0]; and the two totals are
    the same number, up to the sign of a zero. *)
Theorem C10_zero_insurance (inputs : LoanInput) :
  is_zero (insuranceCost inputs) = true ->
  allInSolve inputs = exclSolve inputs /\
  (forall r, rate (allInSolve inputs) = Some r -> is_finite r = true ->
     effectiveInsuranceAnnualRate (computeLoanOutput inputs) = S754_zero false) /\
  (totalCost (computeLoanOutput inputs)
     = totalCostWithoutInsurance (computeLoanOutput inputs) \/
   (totalCost (computeLoanOutput inputs) = S754_zero false /\
    totalCostWithoutInsurance (computeLoanOutput inputs) = S754_zero true)).
Proof.
  intros Hz.
  assert (E : allInSolve inputs = exclSolve inputs).
  { unfold allInSolve, exclSolve. apply solver_average.
    apply averageInstallment_without_insurance, Hz. }
  split; [exact E|]. split.
  - intros r Hr Hfin. rewrite loan_output_insurance_rate, <- E, Hr. simpl.
    apply sub_diag_finite, Hfin.
  - unfold computeLoanOutput. cbn [totalCost totalCostWithoutInsurance].
    generalize (ic_totalInterests
                  (computeInterestCost (annualRate inputs) (months inputs)
                     (principal inputs))).
    intros ti.
    destruct (@add_zero_r (initialFees inputs) (insuranceCost inputs) Hz)
      as [-> | [-> ->]]; [left; reflexivity|].
    destruct ti as [[]| | |]; simpl; auto.
Qed.

Lemma C10_zero_insurance_witness :
  let inputs :=
    {| principal := of_nat 1000; annualRate := of_nat 0; months := 1;
       initialFees := of_nat 0; insuranceCost := of_nat 0 |} in
  is_zero (insuranceCost inputs) = true /\
  rate (allInSolve inputs) = Some (S754_zero false) /\
  allInSolve inputs = exclSolve inputs /\
  effectiveInsuranceAnnualRate (computeLoanOutput inputs) = S754_zero false.
Proof.
  intros inputs.
  destruct (@C10_zero_insurance inputs eq_refl) as (E & H & _).
  split; [reflexivity|]. split; [vm_compute; reflexivity|]. split; [exact E|].
  apply (H (S754_zero false)); vm_compute; reflexivity.
Defined.

(** C10 as stated fails: with principal 1, fees 1, one period, rate 0 and
    no insurance, both solves converge, on the iterate [x = 0], to the
    rate [+Infinity], and the insurance rate is NaN, not 0. *)
Lemma C10_counterexample :
  let inputs :=
    {| principal := of_nat 1; annualRate := of_nat 0; months := 1;
       initialFees := of_nat 1; insuranceCost := of_nat 0 |} in
  is_zero (insuranceCost inputs) = true /\
  converged (allInSolve inputs) = true /\
  rate (allInSolve inputs) = Some (S754_infinity false) /\
  converged (exclSolve inputs) = true /\
  rate (exclSolve inputs) = Some (S754_infinity false) /\
  effectiveInsuranceAnnualRate (computeLoanOutput inputs) = S754_nan /\
  (effectiveInsuranceAnnualRate (computeLoanOutput inputs) === of_nat 0) = false.
Proof. vm_compute. auto 8. Qed.

Lemma C4_annualization_witness :
  let g := solver_objective (A := IEEE.arith) 1 (of_nat 1000) (of_nat 0) (of_nat 50) in
  let r := computeEffectiveAnnualRate (A := IEEE.arith) 1 (of_nat 1000) (of_nat 0) (of_nat 50) in
  converged r = true /\
  exists k, (k < 100)%nat /\ entered g default_epsilon solver_x0 k /\
            accepted g default_epsilon (iterate g solver_x0 k) = true /\
            newton g solver_x0 default_epsilon default_maxIterations
              = Return (iterate g solver_x0 k) /\
            rate r = Some ((of_nat 1 / iterate g solver_x0 k) ** 12 - of_nat 1).
Proof.
  intros g r. split; [vm_compute; reflexivity|].
  apply (@C4_annualization IEEE.arith 1 (of_nat 1000) (of_nat 0) (of_nat 50)).
  vm_compute. reflexivity.
Defined.

(** C8 on the code.  The annual rate [1e-20] is finite and positive and
    its twelfth is not zero, so the zero-rate branch is not taken; but
    [1 + rate / 12] rounds to [1], the compound factor is [1], the
    divisor [compoundFactor - 1] is zero, and for the principal 1000 over
    12 periods both results are [+Infinity]. *)
Theorem C8_division_by_zero :
  is_finite (tiny_rate (A := IEEE.arith)) = true /\
  (of_nat 0 <? tiny_rate) = true /\
  (tiny_rate / of_nat 12 === of_nat 0) = false /\
  (of_nat 1 + tiny_rate / of_nat 12) ** 12 - of_nat 1 = S754_zero false /\
  ic_monthlyInstallmentWithoutInsurance (computeInterestCost tiny_rate 12 (of_nat 1000))
    = S754_infinity false /\
  ic_totalInterests (computeInterestCost tiny_rate 12 (of_nat 1000))
    = S754_infinity false.
Proof. vm_compute. auto 8. Qed.

(** C3 on the code.  At the positive annual rate [1e-20] with principal 0
    over 12 periods the general branch is taken and its division is
    [0 / 0]: installment and total interest are NaN, and the amortization
    identity fails, as an equality and within the tolerance [1e-9]. *)
Theorem C3_identity_fails :
  (of_nat 0 <? tiny_rate (A := IEEE.arith)) = true /\
  ic_monthlyInstallmentWithoutInsurance (computeInterestCost tiny_rate 12 (of_nat 0))
    = S754_nan /\
  ic_totalInterests (computeInterestCost tiny_rate 12 (of_nat 0)) = S754_nan /\
  amortization_identity_holds 12 (of_nat 0)
    (computeInterestCost tiny_rate 12 (of_nat 0)) = false /\
  (ic_monthlyInstallmentWithoutInsurance (computeInterestCost tiny_rate 12 (of_nat 0))
     * of_nat 12 - of_nat 0
   === ic_totalInterests (computeInterestCost tiny_rate 12 (of_nat 0))) = false.
Proof. vm_compute. auto 8. Qed.

(** C9 on the code.  For the loan of principal 0 at the annual rate
    [1e-20] over 12 periods, with fees 2500 and insurance 10000, the total
    interest is NaN, so both totals are NaN and
    [totalCostWithoutInsurance <= totalCost] is false. *)
Theorem C9_invariant_fails :
  let inputs :=
    {| principal := of_nat 0; annualRate := tiny_rate; months := 12;
       initialFees := of_nat 2500; insuranceCost := of_Z 10000 |} in
  SFleb (of_nat 0) (insuranceCost inputs) = true /\
  totalInterests (computeLoanOutput inputs) = S754_nan /\
  totalCost (computeLoanOutput inputs) = S754_nan /\
  totalCostWithoutInsurance (computeLoanOutput inputs) = S754_nan /\
  SFleb (totalCostWithoutInsurance (computeLoanOutput inputs))
        (totalCost (computeLoanOutput inputs)) = false.
Proof. vm_compute. auto 8. Qed.

Lemma infinity_not_below (y : num) : (S754_infinity false <? y) = false.
Proof. destruct y as [s|[]| |[] m e]; reflexivity. Qed.

(** C7 on the code.  For the principal 1000 over 12 periods, the annual
    rate [1e-20] is positive and below the annual rate [0.05], and at
    [1e-20] the code divides by zero: total interest and installment are
    [+Infinity].  So they are not strictly smaller than the total interest
    and the installment at [0.05], nor than those at any other rate. *)
Theorem C7_not_increasing :
  (of_nat 0 <? tiny_rate (A := IEEE.arith)) = true /\
  (tiny_rate <? lit (5 # 100)) = true /\
  ic_totalInterests (computeInterestCost tiny_rate 12 (of_nat 1000)) = S754_infinity false /\
  ic_monthlyInstallmentWithoutInsurance (computeInterestCost tiny_rate 12 (of_nat 1000))
    = S754_infinity false /\
  forall a2 : num,
    (ic_totalInterests (computeInterestCost tiny_rate 12 (of_nat 1000))
       <? ic_totalInterests (computeInterestCost a2 12 (of_nat 1000))) = false /\
    (ic_monthlyInstallmentWithoutInsurance (computeInterestCost tiny_rate 12 (of_nat 1000))
       <? ic_monthlyInstallmentWithoutInsurance (computeInterestCost a2 12 (of_nat 1000)))
      = false.
Proof.
  assert (Ht : ic_totalInterests (computeInterestCost tiny_rate 12 (of_nat 1000))
               = S754_infinity false) by (vm_compute; reflexivity).
  assert (Hi : ic_monthlyInstallmentWithoutInsurance
                 (computeInterestCost tiny_rate 12 (of_nat 1000))
               = S754_infinity false) by (vm_compute; reflexivity).
  split; [vm_compute; reflexivity|]. split; [vm_compute; reflexivity|].
  split; [exact Ht|]. split; [exact Hi|].
  intros a2. rewrite Ht, Hi. split; apply infinity_not_below.
Qed.

End IEEEFacts.



(** * Further properties of the code *)

(** ** What [newton] returns *)

Section NewtonPost.
Context {A : Arith}.
Local Open Scope num_scope.

(** X1.  Whatever [newton] returns passes its convergence test,
    [|value| < epsilon], and is one of the first [maxIterations] iterates. *)
Theorem newton_returns_accepted (f : num -> num * num) (x0 epsilon : num)
  (maxIterations : nat) (x : num) :
  newton f x0 epsilon maxIterations = Return x ->
  (abs (fst (f x)) <? epsilon) = true /\
  exists k, (k < maxIterations)%nat /\ x = iterate f x0 k.
Proof.
  unfold newton. intros H. apply newton_loop_return in H.
  destruct H as (k & Hk & _ & Ha & ->). split; [exact Ha | eauto].
Qed.

End NewtonPost.

(** ** The calculator on doubles, continued *)

Section IEEEExtras.
Import IEEE.
Local Open Scope num_scope.

Lemma newton_returns_accepted_witness :
  newton (solver_objective (A := IEEE.arith) 1 (of_nat 1000) (of_nat 0) (of_nat 50))
    solver_x0 default_epsilon default_maxIterations
    = Return (iterate (solver_objective 1 (of_nat 1000) (of_nat 0) (of_nat 50)) solver_x0 1) /\
  (abs (fst (solver_objective 1 (of_nat 1000) (of_nat 0) (of_nat 50)
               (iterate (solver_objective 1 (of_nat 1000) (of_nat 0) (of_nat 50))
                  solver_x0 1)))
     <? default_epsilon) = true.
Proof.
  assert (H : newton (solver_objective (A := IEEE.arith) 1 (of_nat 1000) (of_nat 0) (of_nat 50))
                solver_x0 default_epsilon default_maxIterations
              = Return (iterate (solver_objective 1 (of_nat 1000) (of_nat 0) (of_nat 50))
                          solver_x0 1))
    by (vm_compute; reflexivity).
  split; [exact H|]. exact (proj1 (newton_returns_accepted _ _ _ _ H)).
Defined.

Lemma add_nan_r (v : num) : v + S754_nan = S754_nan.
Proof. destruct v; reflexivity. Qed.

Lemma objective_value_nan (n : nat) (P F avg x : num) :
  is_nan (F - P) = true ->
  (abs (fst (objectiveFunction n P F avg x)) <? default_epsilon) = false.
Proof.
  intros Hc. unfold objectiveFunction.
  destruct (fold_left _ _ _) as [v d]. cbn [fst].
  destruct (F - P); try discriminate. rewrite add_nan_r. reflexivity.
Qed.

Lemma solver_nan_difference (n : nat) (P F T : num) :
  is_nan (F - P) = true ->
  computeEffectiveAnnualRate n P F T = {| converged := false; rate := None |}.
Proof.
  intros Hc. rewrite solver_unfold. unfold newton.
  destruct (@newton_loop_never_accepted IEEE.arith (solver_objective n P F T)
              default_epsilon default_maxIterations solver_x0) as [e ->]; [|reflexivity].
  intros x. apply objective_value_nan, Hc.
Qed.

(** X8.  On doubles, when [initialFees - principal] is NaN (one of them is
    NaN, or both are the same infinity), both solves fail and both rates of
    the output are NaN: no number is made up. *)
Theorem nan_difference_gives_nan_rates (inputs : LoanInput) :
  is_nan (initialFees inputs - principal inputs) = true ->
  effectiveAnnualRate (computeLoanOutput inputs) = S754_nan /\
  effectiveInsuranceAnnualRate (computeLoanOutput inputs) = S754_nan.
Proof.
  intros Hc. unfold computeLoanOutput.
  cbn [effectiveAnnualRate effectiveInsuranceAnnualRate].
  rewrite !solver_nan_difference by exact Hc. split; reflexivity.
Qed.

Lemma nan_difference_gives_nan_rates_witness :
  let inputs :=
    {| principal := S754_nan; annualRate := lit (5 # 100); months := 12;
       initialFees := of_nat 20; insuranceCost := of_nat 30 |} in
  is_nan (initialFees inputs - principal inputs) = true /\
  effectiveAnnualRate (computeLoanOutput inputs) = S754_nan /\
  effectiveInsuranceAnnualRate (computeLoanOutput inputs) = S754_nan.
Proof.
  intros inputs. split; [reflexivity|].
  apply nan_difference_gives_nan_rates. reflexivity.
Defined.

(** The zero-rate branch of [computeInterestCost]. *)
Lemma interest_cost_zero_branch (annualRate principal : num) (months : nat) :
  (annualRate === of_nat 0) = true ->
  computeInterestCost annualRate months principal =
    {| ic_monthlyInstallmentWithoutInsurance := principal / of_nat months;
       ic_totalInterests := of_nat 0 |}.
Proof.
  intros H. destruct (eqb_zero_inv _ H) as [s ->].
  unfold computeInterestCost. rewrite twelve_eq. destruct s; reflexivity.
Qed.

(** X9.  On doubles, a loan at the rate zero has the installment
    [principal / months], no interest, a total without insurance equal to
    the fees and a total cost equal to fees plus insurance (a [-0] sum
    shows as [+0]). *)
Theorem zero_rate_totals (inputs : LoanInput) :
  (annualRate inputs === of_nat 0) = true ->
  let out := computeLoanOutput inputs in
  monthlyInstallmentWithoutInsurance out = principal inputs / of_nat (months inputs) /\
  totalInterests out = S754_zero false /\
  (totalCostWithoutInsurance out = initialFees inputs \/
   (initialFees inputs = S754_zero true /\ totalCostWithoutInsurance out = S754_zero false)) /\
  (totalCost out = initialFees inputs + insuranceCost inputs \/
   (initialFees inputs + insuranceCost inputs = S754_zero true /\
    totalCost out = S754_zero false)).
Proof.
  intros H out. subst out. unfold computeLoanOutput.
  cbn [monthlyInstallmentWithoutInsurance totalInterests totalCostWithoutInsurance totalCost].
  rewrite interest_cost_zero_branch by exact H.
  cbn [ic_monthlyInstallmentWithoutInsurance ic_totalInterests].
  split; [reflexivity|]. split; [reflexivity|]. split.
  - apply (@add_zero_r (initialFees inputs) (S754_zero false) eq_refl).
  - apply (@add_zero_r (initialFees inputs + insuranceCost inputs) (S754_zero false) eq_refl).
Qed.

Lemma zero_rate_totals_witness :
  let inputs :=
    {| principal := of_Z 12000; annualRate := of_nat 0; months := 12;
       initialFees := of_nat 20; insuranceCost := of_nat 30 |} in
  (annualRate inputs === of_nat 0) = true /\
  monthlyInstallmentWithoutInsurance (computeLoanOutput inputs) = of_nat 1000 /\
  totalInterests (computeLoanOutput inputs) = S754_zero false /\
  totalCostWithoutInsurance (computeLoanOutput inputs) = of_nat 20 /\
  totalCost (computeLoanOutput inputs) = of_nat 50.
Proof.
  intros inputs. split; [reflexivity|].
  destruct (@zero_rate_totals inputs eq_refl) as (Hm & Ht & Hw & Hc).
  split; [rewrite Hm; vm_compute; reflexivity|]. split; [exact Ht|].
  split.
  - destruct Hw as [-> | [E _]]; [reflexivity | discriminate E].
  - destruct Hc as [-> | [E _]]; [vm_compute; reflexivity | vm_compute in E; discriminate E].
Defined.

Lemma div_pzero (y : num) : S754_zero false * (y / S754_zero false) = S754_nan.
Proof. destruct y as [[]|[]| |[]]; reflexivity. Qed.

Lemma objective_no_period (P F T x : num) :
  solver_objective 0 P F T x = (of_nat 0 + (F - P), S754_nan).
Proof.
  unfold solver_objective, objectiveFunction, averageInstallment. cbn [seq fold_left].
  f_equal. apply div_pzero.
Qed.

Lemma newton_loop_constant (f : num -> num * num) (v epsilon : num) (n : nat) (x0 : num) :
  (forall x, f x = (v, S754_nan)) ->
  newton_loop f epsilon n x0 =
    match n with
    | O => Throw (Error "Max iterations reached")
    | S _ => if abs v <? epsilon then Return x0
             else Throw (Error "Max iterations reached")
    end.
Proof.
  intros Hf. destruct (abs v <? epsilon) eqn:E.
  - destruct n; [reflexivity|]. rewrite newton_loop_S. unfold accepted. rewrite Hf. cbn [fst].
    rewrite E. reflexivity.
  - assert (forall m x, newton_loop f epsilon m x = Throw (Error "Max iterations reached")) as H.
    { induction m as [|m IH]; intros x; [reflexivity|].
      rewrite newton_loop_S. unfold accepted, flat. rewrite Hf. cbn [fst snd]. rewrite E.
      cbn. apply IH. }
    rewrite H. destruct n; reflexivity.
Qed.

(** X10.  On doubles, with zero periods the loop of the objective does not
    run and the derivative is NaN, so the solver never takes a step: it
    reports convergence exactly when [|initialFees - principal| < 1e-7],
    and then with the annualisation of its starting point [0.99]; otherwise
    it uses up its 100 iterations and reports non-convergence. *)
Theorem solver_no_period (P F T : num) :
  computeEffectiveAnnualRate 0 P F T =
    if abs (of_nat 0 + (F - P)) <? default_epsilon
    then {| converged := true; rate := Some ((of_nat 1 / solver_x0) ** 12 - of_nat 1) |}
    else {| converged := false; rate := None |}.
Proof.
  rewrite solver_unfold. unfold newton.
  rewrite (@newton_loop_constant _ (of_nat 0 + (F - P)) default_epsilon
             default_maxIterations solver_x0 (objective_no_period P F T)).
  unfold default_maxIterations.
  destruct (abs (of_nat 0 + (F - P)) <? default_epsilon); reflexivity.
Qed.




Lemma div_zero_not_finite (y z : num) : is_zero z = true -> is_finite (y / z) = false.
Proof.
  destruct z as [sz| | |]; try discriminate. intros _.
  destruct y as [sy|sy| |sy my ey]; reflexivity.
Qed.

Lemma not_finite_times_minus (i n P : num) :
  is_finite i = false -> is_finite (i * n - P) = false.
Proof.
  destruct i as [si|si| |si mi ei]; try discriminate; intros _.
  - destruct n as [sn|sn| |sn mn en]; simpl;
      destruct P as [sP|sP| |sP mP eP]; simpl; try reflexivity;
      destruct (xorb si sn), sP; reflexivity.
  - reflexivity.
Qed.

(** X14.  On doubles, whenever the general branch is taken with a compound
    factor equal to 1 (so that the divisor [compoundFactor - 1] is zero),
    neither the installment nor the total interest is finite, whatever the
    principal: the results are infinities or NaN. *)
Theorem zero_divisor_not_finite (annualRate principal : num) (months : nat) :
  (annualRate / of_nat 12 === of_nat 0) = false ->
  is_zero ((of_nat 1 + annualRate / of_nat 12) ** months - of_nat 1) = true ->
  is_finite (ic_monthlyInstallmentWithoutInsurance
               (computeInterestCost annualRate months principal)) = false /\
  is_finite (ic_totalInterests (computeInterestCost annualRate months principal)) = false.
Proof.
  intros Hb Hz. unfold computeInterestCost. rewrite Hb.
  cbn [ic_monthlyInstallmentWithoutInsurance ic_totalInterests].
  assert (Hi : is_finite
                 (principal * (annualRate / of_nat 12)
                    * (of_nat 1 + annualRate / of_nat 12) ** months
                  / ((of_nat 1 + annualRate / of_nat 12) ** months - of_nat 1)) = false)
    by (apply div_zero_not_finite, Hz).
  split; [exact Hi | apply not_finite_times_minus, Hi].
Qed.

Lemma zero_divisor_not_finite_witness :
  (tiny_rate / of_nat 12 === of_nat 0) = false /\
  is_zero ((of_nat 1 + tiny_rate / of_nat 12) ** 12 - of_nat 1) = true /\
  is_finite (ic_monthlyInstallmentWithoutInsurance
               (computeInterestCost tiny_rate 12 (of_Z 200000))) = false /\
  is_finite (ic_totalInterests (computeInterestCost tiny_rate 12 (of_Z 200000))) = false.
Proof.
  split; [reflexivity|]. split; [reflexivity|].
  apply zero_divisor_not_finite; reflexivity.
Defined.

End IEEEExtras.

(** ** The caller *)

(** X11.  [parseUnit] answers ['years'] exactly for the string ["years"]
    and for an array that starts with it; a missing parameter, an empty
    array and every other string give ['months']. *)
Theorem parseUnit_years (value : ParamValue) :
  parseUnit value = Years <->
  value = PString "years" \/ exists rest, value = PArray ("years"%string :: rest).
Proof.
  assert (S : forall s, parseUnit_string s = Years <-> s = "years"%string).
  { intros s. unfold parseUnit_string. destruct (String.eqb_spec s "years").
    - tauto.
    - split; [discriminate | contradiction]. }
  destruct value as [|s|[|s l]]; simpl.
  - split; [discriminate | intros [H | [r H]]; discriminate].
  - rewrite S. split; [intros ->; auto | intros [[= ->] | [r H]]; [reflexivity | discriminate]].
  - split; [discriminate | intros [H | [r H]]; discriminate].
  - rewrite S. split; [intros ->; eauto | intros [H | [r [= -> _]]]; [discriminate | reflexivity]].
Qed.

Section CallerIEEE.
Import IEEE.
Local Open Scope num_scope.

Lemma hundred_eq : of_nat 100 = S754_finite false 7036874417766400 (-46).
Proof. reflexivity. Qed.

(** X12.  On doubles, a form that validated with a rate of 0 percent gets
    an output with no interest and the installment [principal / months],
    the months being the duration, or twelve times the duration when it is
    in years. *)
Theorem getResult_zero_percent (output : FormOutput) :
  (form_annualRatePercentage output === of_nat 0) = true ->
  exists out,
    getResult (ParseSuccess output) = Some out /\
    totalInterests out = S754_zero false /\
    monthlyInstallmentWithoutInsurance out =
      form_principal output /
      of_nat (match form_durationUnit output with
              | Months => form_durationValue output
              | Years => form_durationValue output * 12
              end).
Proof.
  intros H. destruct (eqb_zero_inv _ H) as [s Hs].
  eexists. split; [reflexivity|].
  assert (Hr : (form_annualRatePercentage output / of_nat 100 === of_nat 0) = true).
  { rewrite Hs, hundred_eq. destruct s; reflexivity. }
  unfold computeLoanOutput.
  cbn [totalInterests monthlyInstallmentWithoutInsurance annualRate months principal].
  rewrite interest_cost_zero_branch by exact Hr. split; reflexivity.
Qed.

Lemma getResult_zero_percent_witness :
  let output :=
    {| form_principal := of_Z 12000; form_annualRatePercentage := of_nat 0;
       form_durationValue := 1; form_durationUnit := Years;
       form_initialFees := of_nat 20; form_insuranceCost := of_nat 30 |} in
  (form_annualRatePercentage output === of_nat 0) = true /\
  exists out,
    getResult (ParseSuccess output) = Some out /\
    totalInterests out = S754_zero false /\
    monthlyInstallmentWithoutInsurance out = of_Z 12000 / of_nat 12.
Proof.
  intros output. split; [reflexivity|].
  exact (@getResult_zero_percent output eq_refl).
Defined.

End CallerIEEE.

(** ** The literals against the prover's own doubles *)

Section Literals.
Import IEEE PrimFloat.
Local Set Warnings "-inexact-float".

(** The decimal literals of the source, modelled as correctly rounded
    quotients, are the doubles that a parser of decimals produces. *)
Lemma literals_as_parsed :
  solver_x0 = FloatOps.Prim2SF 0.99%float /\
  default_epsilon = FloatOps.Prim2SF 1e-7%float /\
  tiny_rate = FloatOps.Prim2SF 1e-20%float /\
  of_nat 12 = FloatOps.Prim2SF 12%float.
Proof. vm_compute. auto. Qed.

(** The division by zero of C8, computed by the machine's own doubles. *)
Lemma tiny_rate_on_hardware :
  FloatOps.Prim2SF ((1 + 1e-20 / 12) - 1)%float = S754_zero false /\
  FloatOps.Prim2SF ((1000 * (1e-20 / 12) * 1) / ((1 + 1e-20 / 12) - 1))%float
    = S754_infinity false.
Proof. vm_compute. auto. Qed.

End Literals.
